(** * CertImporter: a shallow embedding of
      certimporter/CertImporter/CertImporter.cpp

    The program is a command line tool with three actions on a system
    certificate store: [find] a certificate by subject name, [add] a DER
    encoded certificate read from a file, [delete] a certificate by subject
    name.  The result of the chosen action is the exit code of the process.

    The program talks to three collaborators that are not part of it: the
    file system, the DER decoder and the certificate store of crypt32.  They
    are modelled by a [World] (files, stores, open handles, the trace of
    crypt32 calls, the error stream) and a [Platform] (decoder, subject
    matching, certificate identity, and whether the store accepts a write).
    The functions of the program are written in a state monad over [World],
    statement by statement as in the C++ source. *)

From Stdlib Require Import ZArith String Ascii List Lia.
From Stdlib.Strings Require Import Byte.
From stdpp Require Import base tactics option list strings gmap.

Local Open Scope string_scope.
Local Open Scope list_scope.
Local Open Scope Z_scope.

(** ** Constants *)

(** CertImporter.cpp, lines 19-20. *)
Definition STR_BUF_SZ : Z := 4096.
Definition STATUS_BAD_PARAMS : Z := 99.

(** Values of the Wincrypt.h macros the program passes to crypt32. *)
Definition X509_ASN_ENCODING : Z := 0x1.
Definition PKCS_7_ASN_ENCODING : Z := 0x10000.
Definition CERT_STORE_PROV_SYSTEM : Z := 10.
Definition CERT_SYSTEM_STORE_LOCAL_MACHINE : Z := 0x20000.
Definition CERT_STORE_READONLY_FLAG : Z := 0x8000.
Definition CERT_FIND_SUBJECT_STR : Z := 0x80007.
Definition CERT_STORE_ADD_NEW : Z := 1.
Definition CERT_STORE_ADD_USE_EXISTING : Z := 2.
Definition CERT_STORE_ADD_REPLACE_EXISTING : Z := 3.
Definition CERT_STORE_ADD_ALWAYS : Z := 4.

(** ** Wide strings

    An [LPCWSTR] is modelled by the characters before its terminator, so the
    end of the Rocq string plays the role of [L'\0']. *)

Definition wchar_code (c : ascii) : Z := Z.of_N (N_of_ascii c).

(** [wcsncmp s1 s2 n]: compare at most [n] characters, stopping at the first
    difference or at the terminator; the sign of the result is the sign of
    the difference of the first differing characters. *)
Fixpoint wcsncmp (s1 s2 : string) (n : nat) {struct n} : Z :=
  match n with
  | O => 0
  | S n' =>
      match s1, s2 with
      | EmptyString, EmptyString => 0
      | EmptyString, String c2 _ => 0 - wchar_code c2
      | String c1 _, EmptyString => wchar_code c1 - 0
      | String c1 r1, String c2 r2 =>
          if Ascii.eqb c1 c2 then wcsncmp r1 r2 n'
          else wchar_code c1 - wchar_code c2
      end
  end.

(** [s] begins with [p]. *)
Definition starts_with (p s : string) : Prop := ∃ rest, s = p +:+ rest.

(** ** Handles, calls and the platform *)

(** An open certificate store: which system store, and the flags it was
    opened with.  [NULL] is [None]. *)
Record HCERTSTORE := mkStore { hs_name : string; hs_flags : Z }.

#[global] Instance HCERTSTORE_eq_dec : EqDecision HCERTSTORE.
Proof. solve_decision. Defined.

(** The crypt32 entry points, as they appear in the trace of a run. *)
Inductive ApiCall :=
| CallCertOpenStore (name : string) (flags : Z)
| CallCertFindCertificateInStore (h : HCERTSTORE) (findType : Z) (para : string)
| CallCertCreateCertificateContext (cb : nat)
| CallCertAddCertificateContextToStore (h : HCERTSTORE) (disposition : Z)
| CallCertDeleteCertificateFromStore
| CallCertFreeCertificateContext
| CallCertCloseStore (h : HCERTSTORE).

Definition is_close_call (c : ApiCall) : bool :=
  match c with CallCertCloseStore _ => true | _ => false end.

(** What the program does not implement itself. *)
Record Platform := mkPlatform {
  (** a decoded certificate *)
  Cert : Type;
  (** the store's native identity of a certificate (issuer and serial
      number, say), used by add-or-replace *)
  CertId : Type;
  CertId_eq_dec : EqDecision CertId;
  cert_id : Cert → CertId;
  (** the DER decoder behind [CertCreateCertificateContext] *)
  decode : list byte → option Cert;
  (** the subject test behind [CERT_FIND_SUBJECT_STR] *)
  subject_matches : Cert → string → bool;
  (** does the named store, with these contents, accept the insertion or
      the removal of this certificate (permissions, store health) *)
  accepts_add : string → list Cert → Cert → bool;
  accepts_delete : string → list Cert → Cert → bool
}.

#[global] Existing Instance CertId_eq_dec.

Section Model.
Context (P : Platform).

(** A certificate context: the certificate, and for a context that was
    found in a store, the handle and the position of the entry. *)
Record CERT_CONTEXT := mkContext {
  ctx_cert : Cert P;
  ctx_entry : option (HCERTSTORE * nat)
}.

Record World := mkWorld {
  (** the files the process can open for reading, with their bytes *)
  files : gmap string (list byte);
  (** the system stores the process can open, each in enumeration order *)
  stores : gmap string (list (Cert P));
  (** the handles opened and not closed *)
  open_stores : list HCERTSTORE;
  (** the crypt32 calls made so far, oldest first *)
  calls : list ApiCall;
  (** the lines written to the error stream, oldest first *)
  stderr : list string
}.

Definition log_call (c : ApiCall) (w : World) : World :=
  mkWorld (files w) (stores w) (open_stores w) (calls w ++ [c]) (stderr w).

Definition set_stores (s : gmap string (list (Cert P))) (w : World) : World :=
  mkWorld (files w) s (open_stores w) (calls w) (stderr w).

Definition set_open_stores (l : list HCERTSTORE) (w : World) : World :=
  mkWorld (files w) (stores w) l (calls w) (stderr w).

(** ** The state monad of the program *)

Definition M (A : Type) : Type := World → A * World.

Definition ret {A} (a : A) : M A := fun w => (a, w).

Definition bind {A B} (m : M A) (k : A → M B) : M B :=
  fun w => let (a, w') := m w in k a w'.

Notation "'do' x <- m ; k" := (bind m (fun x => k))
  (at level 10, x name, m at level 100, k at level 200).
Notation "'do_' m ; k" := (bind m (fun _ => k))
  (at level 10, m at level 100, k at level 200).

(** [cerr << msg] and [wcerr << msg]. *)
Definition cerr (msg : string) : M unit :=
  fun w => (tt, mkWorld (files w) (stores w) (open_stores w) (calls w) (stderr w ++ [msg])).

(** ** The collaborators *)

(** [ifstream::open] followed by [is_open]: the bytes of the file when it
    can be opened. *)
Definition ifstream_open (path : string) : M (option (list byte)) :=
  fun w => (files w !! path, w).

(** [CertOpenStore] for the system store provider. *)
Definition CertOpenStore (provider encoding hCryptProv flags : Z) (name : string)
  : M (option HCERTSTORE) :=
  fun w =>
    let w1 := log_call (CallCertOpenStore name flags) w in
    match stores w !! name with
    | Some _ =>
        let h := mkStore name flags in
        (Some h, set_open_stores (open_stores w1 ++ [h]) w1)
    | None => (None, w1)
    end.

(** [CertCloseStore]. *)
Definition CertCloseStore (h : HCERTSTORE) : M bool :=
  fun w =>
    let w1 := log_call (CallCertCloseStore h) w in
    (true, set_open_stores (filter (λ h', h' ≠ h) (open_stores w1)) w1).

(** [CertFindCertificateInStore] with no previous context: the first entry,
    in enumeration order, that passes the test of the find type.  The model
    knows the find type [CERT_FIND_SUBJECT_STR] only. *)
Definition CertFindCertificateInStore (h : HCERTSTORE) (encoding findFlags findType : Z)
  (para : string) : M (option CERT_CONTEXT) :=
  fun w =>
    let w1 := log_call (CallCertFindCertificateInStore h findType para) w in
    if bool_decide (findType = CERT_FIND_SUBJECT_STR) then
      match stores w !! hs_name h with
      | Some l =>
          match list_find (λ c, subject_matches P c para = true) l with
          | Some (i, c) => (Some (mkContext c (Some (h, i))), w1)
          | None => (None, w1)
          end
      | None => (None, w1)
      end
    else (None, w1).

(** [CertCreateCertificateContext]: decode the first [cb] bytes of the
    buffer. *)
Definition CertCreateCertificateContext (encoding : Z) (pb : list byte) (cb : nat)
  : M (option CERT_CONTEXT) :=
  fun w =>
    let w1 := log_call (CallCertCreateCertificateContext cb) w in
    match decode P (take cb pb) with
    | Some c => (Some (mkContext c None), w1)
    | None => (None, w1)
    end.

Definition same_cert (c c' : Cert P) : bool :=
  bool_decide (cert_id P c = cert_id P c').

Definition read_only (h : HCERTSTORE) : bool :=
  negb (Z.land (hs_flags h) CERT_STORE_READONLY_FLAG =? 0).

(** Add-or-replace: the entries with the identity of [c] go, [c] comes. *)
Definition replace_existing (c : Cert P) (l : list (Cert P)) : list (Cert P) :=
  List.filter (λ c', negb (same_cert c c')) l ++ [c].

(** The contents of a store after an accepted add, by disposition: a new
    entry goes to the end; [None] when the disposition refuses. *)
Definition add_disposition (disposition : Z) (l : list (Cert P)) (c : Cert P)
  : option (list (Cert P)) :=
  let present := existsb (same_cert c) l in
  if disposition =? CERT_STORE_ADD_NEW then
    if present then None else Some (l ++ [c])
  else if disposition =? CERT_STORE_ADD_USE_EXISTING then
    if present then Some l else Some (l ++ [c])
  else if disposition =? CERT_STORE_ADD_REPLACE_EXISTING then
    Some (replace_existing c l)
  else if disposition =? CERT_STORE_ADD_ALWAYS then
    Some (l ++ [c])
  else None.

(** [CertAddCertificateContextToStore]: [FALSE] on a read-only handle, on a
    store that is gone or does not accept the certificate, and when the
    disposition refuses. *)
Definition CertAddCertificateContextToStore (h : HCERTSTORE) (ctx : CERT_CONTEXT)
  (disposition : Z) : M bool :=
  fun w =>
    let w1 := log_call (CallCertAddCertificateContextToStore h disposition) w in
    match stores w !! hs_name h with
    | Some l =>
        if read_only h || negb (accepts_add P (hs_name h) l (ctx_cert ctx)) then (false, w1)
        else
          match add_disposition disposition l (ctx_cert ctx) with
          | Some l' => (true, set_stores (<[hs_name h := l']> (stores w1)) w1)
          | None => (false, w1)
          end
    | None => (false, w1)
    end.

(** [CertDeleteCertificateFromStore]: remove the entry the context stands
    for. *)
Definition CertDeleteCertificateFromStore (ctx : CERT_CONTEXT) : M bool :=
  fun w =>
    let w1 := log_call CallCertDeleteCertificateFromStore w in
    match ctx_entry ctx with
    | Some (h, i) =>
        match stores w !! hs_name h with
        | Some l =>
            if read_only h || negb (accepts_delete P (hs_name h) l (ctx_cert ctx)) then (false, w1)
            else (true, set_stores (<[hs_name h := delete i l]> (stores w1)) w1)
        | None => (false, w1)
        end
    | None => (false, w1)
    end.

Definition CertFreeCertificateContext (ctx : CERT_CONTEXT) : M bool :=
  fun w => (true, log_call CallCertFreeCertificateContext w).

(** ** The program *)

(** CertImporter.cpp, lines 28-41. *)
Definition checkExists (store : HCERTSTORE) (commonName : string) : M Z :=
  do cert <- CertFindCertificateInStore store X509_ASN_ENCODING 0
               CERT_FIND_SUBJECT_STR commonName;
  match cert with
  | Some _ => ret 0
  | None =>
      do_ cerr ("No certificate was found with common name " +:+ commonName);
      ret 2
  end.

(** CertImporter.cpp, lines 43-58: one line on the error stream. *)
Definition reportWindowsError (action : string) : M unit :=
  cerr ("Error " +:+ action).

(** CertImporter.cpp, lines 68-110. *)
Definition addCert (store : HCERTSTORE) (certFileName : string) : M Z :=
  do certFile <- ifstream_open certFileName;
  match certFile with
  | None =>
      do_ cerr ("Unable to open cert file: " +:+ certFileName);
      ret 2
  | Some content =>
      (* tellg at the end of the file, then seekg(0) and read(memblock, size) *)
      let size := length content in
      let memblock := take size content in
      do cert <- CertCreateCertificateContext X509_ASN_ENCODING memblock size;
      match cert with
      | None =>
          do_ reportWindowsError "CertCreateCertificateContext";
          ret 3
      | Some cert =>
          do ok <- CertAddCertificateContextToStore store cert
                     CERT_STORE_ADD_REPLACE_EXISTING;
          if negb ok then
            do_ reportWindowsError "CertAddCertificateContextToStore";
            do_ CertFreeCertificateContext cert;
            ret 4
          else
            do_ CertFreeCertificateContext cert;
            ret 5
      end
  end.

(** CertImporter.cpp, lines 112-132. *)
Definition deleteCert (store : HCERTSTORE) (commonName : string) : M Z :=
  do cert <- CertFindCertificateInStore store X509_ASN_ENCODING 0
               CERT_FIND_SUBJECT_STR commonName;
  match cert with
  | Some cert =>
      do ok <- CertDeleteCertificateFromStore cert;
      if negb ok then
        do_ reportWindowsError "CertDeleteCertificateFromStore";
        ret 5
      else
        do_ CertFreeCertificateContext cert;
        ret 0
  | None =>
      do_ cerr "No certificate found";
      ret 6
  end.

(** The three values the function pointer [actionFn] can take. *)
Inductive ActionFn := FnCheckExists | FnAddCert | FnDeleteCert.

Definition call_action (f : ActionFn) : HCERTSTORE → string → M Z :=
  match f with
  | FnCheckExists => checkExists
  | FnAddCert => addCert
  | FnDeleteCert => deleteCert
  end.

(** CertImporter.cpp, lines 150-164: the action function and the additional
    open flags chosen for an action token; [None] is the final [else]. *)
Definition select_action (action : string) : option (ActionFn * Z) :=
  if wcsncmp action "find" 4 =? 0 then Some (FnCheckExists, CERT_STORE_READONLY_FLAG)
  else if wcsncmp action "add" 3 =? 0 then Some (FnAddCert, 0)
  else if wcsncmp action "delete" 6 =? 0 then Some (FnDeleteCert, 0)
  else None.

(** CertImporter.cpp, lines 135-182, after [CommandLineToArgvW]: [argv] are
    the tokens of the command line. *)
Definition wWinMain (argv : list string) : M Z :=
  let argc := Z.of_nat (length argv) in
  if argc <? 3 then
    do_ cerr "Not enough arguments";
    ret STATUS_BAD_PARAMS
  else
    let action := nth 0 argv "" in
    let storeName := nth 1 argv "" in
    let actionData := nth 2 argv "" in
    match select_action action with
    | None =>
        do_ cerr ("Invalid action: " +:+ action);
        ret STATUS_BAD_PARAMS
    | Some (actionFn, additionalOpenFlags) =>
        do store <- CertOpenStore CERT_STORE_PROV_SYSTEM
                      (Z.lor X509_ASN_ENCODING PKCS_7_ASN_ENCODING) 0
                      (Z.lor CERT_SYSTEM_STORE_LOCAL_MACHINE additionalOpenFlags)
                      storeName;
        match store with
        | None =>
            do_ reportWindowsError "CertOpenStore";
            ret 1
        | Some store => call_action actionFn store actionData
        end
    end.

End Model.

Arguments mkContext {P} _ _.
Arguments ctx_cert {P} _.
Arguments ctx_entry {P} _.
Arguments mkWorld {P} _ _ _ _ _.
Arguments files {P} _.
Arguments stores {P} _.
Arguments open_stores {P} _.
Arguments calls {P} _.
Arguments stderr {P} _.
Arguments ret {P A} _ _.
Arguments bind {P A B} _ _ _.
Arguments log_call {P} _ _.
Arguments set_stores {P} _ _.
Arguments set_open_stores {P} _ _.
Arguments cerr {P} _ _.
Arguments call_action {P} _ _ _ _.
Arguments same_cert {P} _ _.
Arguments replace_existing {P} _ _.
Arguments add_disposition {P} _ _ _.
Arguments reportWindowsError {P} _ _.
Arguments ifstream_open {P} _ _.
Arguments CertOpenStore {P} _ _ _ _ _ _.
Arguments CertCloseStore {P} _ _.
Arguments CertFindCertificateInStore {P} _ _ _ _ _ _.
Arguments CertCreateCertificateContext {P} _ _ _ _.
Arguments CertAddCertificateContextToStore {P} _ _ _ _.
Arguments CertDeleteCertificateFromStore {P} _ _.
Arguments CertFreeCertificateContext {P} _ _.
Arguments checkExists {P} _ _ _.
Arguments addCert {P} _ _ _.
Arguments deleteCert {P} _ _ _.
Arguments wWinMain {P} _ _.

(** ** An in-memory platform for running the program *)

Module Fake.

(** A certificate is a subject and a serial number; the serial number is its
    identity. *)
Record cert := mkCert { subject : string; serial : Z }.

(** The encoding read by [parse]: the tag [0x30], one byte of serial
    number, then the characters of the subject. *)
Definition parse (bs : list byte) : option cert :=
  match bs with
  | x30 :: n :: rest => Some (mkCert (string_of_list_byte rest) (Z.of_N (Byte.to_N n)))
  | _ => None
  end.

Fixpoint contains (needle hay : string) : bool :=
  String.prefix needle hay ||
  match hay with
  | EmptyString => false
  | String _ hay' => contains needle hay'
  end.

Definition platform : Platform :=
  mkPlatform cert Z _ serial parse (λ c name, contains name (subject c))
    (λ _ _ _, true) (λ _ _ _, true).

(** The same platform with a store that refuses every removal. *)
Definition platform_no_delete : Platform :=
  mkPlatform cert Z _ serial parse (λ c name, contains name (subject c))
    (λ _ _ _, true) (λ _ _ _, false).


Definition example_ca : cert := mkCert "Example CA" 1.
Definition old_ca : cert := mkCert "Old CA" 7.
Definition example_ca_renewed : cert := mkCert "Example CA" 2.

Definition ca_der : list byte := x30 :: x01 :: list_byte_of_string "Example CA".
Definition junk : list byte := [xff; x00; x13].

Definition disk : gmap string (list byte) :=
  <["ca.der" := ca_der]> (<["junk.bin" := junk]> (<["empty.der" := []]> ∅)).

(** A machine with one store, [ROOT], holding [contents]. *)
Definition machine (P : Platform) (contents : list (Cert P)) : @World P :=
  mkWorld disk (<["ROOT" := contents]> ∅) [] [] [].

End Fake.

(** Observations on a run of the process. *)
Definition exit_code {P} (argv : list string) (w : @World P) : Z :=
  fst (wWinMain argv w).

Definition final_world {P} (argv : list string) (w : @World P) : @World P :=
  snd (wWinMain argv w).

(** The world right after [CertOpenStore] succeeded on [name]. *)
Definition opened {P} (name : string) (flags : Z) (w : @World P) : @World P :=
  set_open_stores (open_stores w ++ [mkStore name flags])
    (log_call (CallCertOpenStore name flags) w).

(** The flags [wWinMain] opens the store with. *)
Definition open_flags (additionalOpenFlags : Z) : Z :=
  Z.lor CERT_SYSTEM_STORE_LOCAL_MACHINE additionalOpenFlags.

(** The entries [checkExists] and [deleteCert], and [addCert], leave in the
    trace. *)
Definition find_call (h : HCERTSTORE) (cn : string) : ApiCall :=
  CallCertFindCertificateInStore h CERT_FIND_SUBJECT_STR cn.


Definition is_open_call (c : ApiCall) : bool :=
  match c with CallCertOpenStore _ _ => true | _ => false end.

(** The crypt32 calls and the error lines a run adds to those of [w]. *)
Definition new_calls {P} (argv : list string) (w : @World P) : list ApiCall :=
  drop (length (calls w)) (calls (final_world argv w)).

Definition new_stderr {P} (argv : list string) (w : @World P) : list string :=
  drop (length (stderr w)) (stderr (final_world argv w)).

(** No character of [p] is the terminator. *)
Fixpoint no_nul (p : string) : bool :=
  match p with
  | EmptyString => true
  | String c p' => negb (wchar_code c =? 0) && no_nul p'
  end.

(** * Properties *)

(** ** String comparison and the choice of the action *)

Lemma wchar_code_inj c1 c2 : wchar_code c1 = wchar_code c2 → c1 = c2.
Proof.
  unfold wchar_code. intros H. apply N2Z.inj in H.
  rewrite <- (ascii_N_embedding c1), <- (ascii_N_embedding c2). by rewrite H.
Qed.

Lemma wcsncmp_prefix p :
  no_nul p = true →
  ∀ s, wcsncmp s p (String.length p) = 0 ↔ starts_with p s.
Proof.
  induction p as [|c p IH]; intros Hp s.
  - split; [intros _; by exists s | done].
  - simpl in Hp. apply andb_true_iff in Hp as [Hc Hp].
    apply negb_true_iff, Z.eqb_neq in Hc.
    destruct s as [|c1 r1]; simpl.
    + split; [lia | intros [rest Hrest]; discriminate].
    + destruct (Ascii.eqb_spec c1 c) as [->|Hne].
      * rewrite (IH Hp r1). split.
        -- intros [rest ->]. by exists rest.
        -- intros [rest Hrest]. injection Hrest as ->. by exists rest.
      * split.
        -- intros Hz. destruct Hne. apply wchar_code_inj. lia.
        -- intros [rest Hrest]. injection Hrest as -> _. done.
Qed.

Lemma wcsncmp_find a : wcsncmp a "find" 4 = 0 ↔ starts_with "find" a.
Proof. by apply (wcsncmp_prefix "find"). Qed.

Lemma wcsncmp_add a : wcsncmp a "add" 3 = 0 ↔ starts_with "add" a.
Proof. by apply (wcsncmp_prefix "add"). Qed.

Lemma wcsncmp_delete a : wcsncmp a "delete" 6 = 0 ↔ starts_with "delete" a.
Proof. by apply (wcsncmp_prefix "delete"). Qed.

Lemma select_action_find a :
  starts_with "find" a → select_action a = Some (FnCheckExists, CERT_STORE_READONLY_FLAG).
Proof. by intros [rest ->]. Qed.

Lemma select_action_add a :
  starts_with "add" a → select_action a = Some (FnAddCert, 0).
Proof. by intros [rest ->]. Qed.

Lemma select_action_delete a :
  starts_with "delete" a → select_action a = Some (FnDeleteCert, 0).
Proof. by intros [rest ->]. Qed.

Lemma select_action_none a :
  ¬ starts_with "find" a → ¬ starts_with "add" a → ¬ starts_with "delete" a →
  select_action a = None.
Proof.
  rewrite <- wcsncmp_find, <- wcsncmp_add, <- wcsncmp_delete.
  intros Hf Ha Hd. unfold select_action.
  apply Z.eqb_neq in Hf, Ha, Hd. by rewrite Hf, Ha, Hd.
Qed.



(** ** The paths through [wWinMain] *)

Section Runs.
Context {P : Platform}.
Implicit Types (w : @World P) (argv rest : list string) (l : list (Cert P)).

Lemma wWinMain_short argv w :
  (length argv < 3)%nat →
  wWinMain argv w = (STATUS_BAD_PARAMS, snd (cerr "Not enough arguments" w)).
Proof.
  intros Hlen. unfold wWinMain.
  destruct (Z.ltb_spec (Z.of_nat (length argv)) 3) as [_|Hge]; [reflexivity | lia].
Qed.

Lemma wWinMain_long a name data rest w :
  wWinMain (a :: name :: data :: rest) w =
  match select_action a with
  | None => (STATUS_BAD_PARAMS, snd (cerr ("Invalid action: " +:+ a) w))
  | Some (fn, flags) =>
      match stores w !! name with
      | None =>
          (1, snd (cerr "Error CertOpenStore"
                     (log_call (CallCertOpenStore name (open_flags flags)) w)))
      | Some _ =>
          call_action fn (mkStore name (open_flags flags)) data
            (opened name (open_flags flags) w)
      end
  end.
Proof.
  unfold wWinMain.
  destruct (Z.ltb_spec (Z.of_nat (length (a :: name :: data :: rest))) 3) as [Hlt|_].
  { simpl in Hlt. lia. }
  cbn [nth]. destruct (select_action a) as [[fn flags]|]; [|reflexivity].
  unfold bind, CertOpenStore, opened, open_flags. simpl.
  destruct (stores w !! name); reflexivity.
Qed.

Lemma wWinMain_opened a fn flags name data rest w l :
  select_action a = Some (fn, flags) →
  stores w !! name = Some l →
  wWinMain (a :: name :: data :: rest) w =
  call_action fn (mkStore name (open_flags flags)) data (opened name (open_flags flags) w).
Proof. intros Hsel Hl. by rewrite wWinMain_long, Hsel, Hl. Qed.

(** C3. An invocation with fewer than 3 arguments, and an invocation whose
    action token begins with none of ["find"], ["add"], ["delete"], exits
    with code 99 without calling [CertOpenStore]: the trace of crypt32
    calls, the stores and the open handles are as before. *)
Theorem bad_invocation_exits_99 argv w :
  (length argv < 3)%nat ∨
  (¬ starts_with "find" (nth 0 argv "") ∧
   ¬ starts_with "add" (nth 0 argv "") ∧
   ¬ starts_with "delete" (nth 0 argv "")) →
  exit_code argv w = 99 ∧
  calls (final_world argv w) = calls w ∧
  stores (final_world argv w) = stores w ∧
  open_stores (final_world argv w) = open_stores w.
Proof.
  unfold exit_code, final_world.
  destruct (decide (length argv < 3)%nat) as [Hlt|Hge].
  { intros _. by rewrite wWinMain_short. }
  intros [Hlt|(Hf & Ha & Hd)]; [done|].
  destruct argv as [|a [|name [|data rest]]]; simpl in Hge; try lia.
  simpl in Hf, Ha, Hd.
  by rewrite wWinMain_long, select_action_none.
Qed.

(** ** The three actions on an open store *)

Lemma checkExists_run h cn w l :
  stores w !! hs_name h = Some l →
  checkExists h cn w =
  match list_find (λ c, subject_matches P c cn = true) l with
  | Some _ => (0, log_call (find_call h cn) w)
  | None =>
      (2, snd (cerr ("No certificate was found with common name " +:+ cn)
                 (log_call (find_call h cn) w)))
  end.
Proof.
  intros Hl. unfold checkExists, bind, CertFindCertificateInStore.
  rewrite bool_decide_true by done. rewrite Hl.
  by destruct (list_find _ l) as [[i c]|].
Qed.


Lemma addCert_malformed h file w bytes :
  files w !! file = Some bytes →
  decode P bytes = None →
  addCert h file w =
  (3, snd (cerr "Error CertCreateCertificateContext"
             (log_call (CallCertCreateCertificateContext (length bytes)) w))).
Proof.
  intros Hf Hd. unfold addCert, bind, ifstream_open, CertCreateCertificateContext.
  rewrite Hf. cbn. by rewrite !firstn_all, Hd.
Qed.


Lemma deleteCert_none h cn w l :
  stores w !! hs_name h = Some l →
  list_find (λ c, subject_matches P c cn = true) l = None →
  deleteCert h cn w =
  (6, snd (cerr "No certificate found" (log_call (find_call h cn) w))).
Proof.
  intros Hl Hnone. unfold deleteCert, bind, CertFindCertificateInStore.
  rewrite bool_decide_true by done. by rewrite Hl, Hnone.
Qed.

Lemma deleteCert_found h cn w l i c :
  stores w !! hs_name h = Some l →
  list_find (λ c, subject_matches P c cn = true) l = Some (i, c) →
  read_only h = false →
  deleteCert h cn w =
  let w1 := log_call CallCertDeleteCertificateFromStore
              (log_call (find_call h cn) w) in
  if accepts_delete P (hs_name h) l c then
    (0, log_call CallCertFreeCertificateContext
          (set_stores (<[hs_name h := delete i l]> (stores w)) w1))
  else
    (5, snd (cerr "Error CertDeleteCertificateFromStore" w1)).
Proof.
  intros Hl Hsome Hro.
  unfold deleteCert, bind, CertFindCertificateInStore, CertDeleteCertificateFromStore.
  rewrite bool_decide_true by done. rewrite Hl, Hsome. cbn. rewrite Hl, Hro. cbn.
  by destruct (accepts_delete P (hs_name h) l c).
Qed.

(** ** Lists of certificates *)

Lemma list_find_first (cn : string) (pre post : list (Cert P)) (c : Cert P) :
  (∀ c', c' ∈ pre → subject_matches P c' cn = false) →
  subject_matches P c cn = true →
  list_find (λ c, subject_matches P c cn = true) (pre ++ c :: post)
  = Some (length pre, c).
Proof.
  intros Hpre Hc. apply list_find_Some. split; [|split; [done|]].
  - by rewrite list_lookup_middle.
  - intros j y Hj Hlt. rewrite lookup_app_l in Hj by done.
    apply list_elem_of_lookup_2, Hpre in Hj. by rewrite Hj.
Qed.

Lemma list_find_absent (cn : string) (l : list (Cert P)) :
  (∀ c, c ∈ l → subject_matches P c cn = false) →
  list_find (λ c, subject_matches P c cn = true) l = None.
Proof.
  intros Hl. apply list_find_None, Forall_forall.
  intros c Hc. by rewrite (Hl c Hc).
Qed.






Lemma read_write name : read_only (mkStore name (open_flags 0)) = false.
Proof. reflexivity. Qed.

(** ** Find *)

(** C4. On a store that was opened, the find action exits with code 0 when
    some entry of the store has a subject matching the given name and with
    code 2 when no entry has; the stores are the same after the run. *)
Theorem find_exit_code a name cn rest w l :
  starts_with "find" a →
  stores w !! name = Some l →
  stores (final_world (a :: name :: cn :: rest) w) = stores w ∧
  ((∃ c, c ∈ l ∧ subject_matches P c cn = true) →
   exit_code (a :: name :: cn :: rest) w = 0) ∧
  ((∀ c, c ∈ l → subject_matches P c cn = false) →
   exit_code (a :: name :: cn :: rest) w = 2).
Proof.
  intros Ha Hl. unfold exit_code, final_world.
  rewrite (wWinMain_opened _ _ _ _ _ _ _ _ (select_action_find _ Ha) Hl).
  cbn [call_action]. rewrite (checkExists_run _ _ _ l) by done.
  destruct (list_find _ l) as [[i c]|] eqn:Hfind.
  - split; [done|]. split; [done|].
    intros Hnone. apply list_find_Some in Hfind as (Hi & Hc & _).
    apply list_elem_of_lookup_2, Hnone in Hi. congruence.
  - split; [done|]. split; [|done].
    intros (c & Hin & Hc).
    apply list_find_None in Hfind. rewrite Forall_forall in Hfind.
    by destruct (Hfind c Hin).
Qed.

(** ** Add *)



(** C10. When the add action is invoked (the store was opened) and the
    certificate file is readable and empty, the file is opened and its zero
    bytes go to the decoder: with a decoder that rejects the empty blob the
    process exits with code 3, not 2, and the stores are as before. *)
Theorem add_empty_file a name file rest w l :
  decode P [] = None →
  starts_with "add" a →
  stores w !! name = Some l →
  files w !! file = Some [] →
  exit_code (a :: name :: file :: rest) w = 3 ∧
  exit_code (a :: name :: file :: rest) w ≠ 2 ∧
  stores (final_world (a :: name :: file :: rest) w) = stores w ∧
  calls (final_world (a :: name :: file :: rest) w)
  = calls w ++ [CallCertOpenStore name (open_flags 0);
                CallCertCreateCertificateContext 0].
Proof.
  intros Hd Ha Hl Hf. unfold exit_code, final_world.
  rewrite (wWinMain_opened _ _ _ _ _ _ _ _ (select_action_add _ Ha) Hl).
  cbn [call_action]. rewrite (addCert_malformed _ _ _ []) by done.
  cbn. by rewrite <- app_assoc.
Qed.



(** ** Delete *)

(** C8. On a store that was opened, the delete action with no entry
    matching the given name exits with code 6 (one of the two codes 2 and 6)
    and leaves the stores as they were.  When [c] is the first entry that
    matches, no entry but [c] is removed: a store that accepts the removal
    loses [c] and keeps every other entry in order, entries with the same
    subject included, and the exit code is 0; a store that refuses keeps
    everything and the exit code is 5. *)
Theorem delete_first_match a name cn rest w l :
  starts_with "delete" a →
  stores w !! name = Some l →
  ((∀ c, c ∈ l → subject_matches P c cn = false) →
   exit_code (a :: name :: cn :: rest) w = 6 ∧
   stores (final_world (a :: name :: cn :: rest) w) = stores w) ∧
  (∀ pre c post,
     l = pre ++ c :: post →
     (∀ c', c' ∈ pre → subject_matches P c' cn = false) →
     subject_matches P c cn = true →
     if accepts_delete P name l c then
       exit_code (a :: name :: cn :: rest) w = 0 ∧
       stores (final_world (a :: name :: cn :: rest) w)
       = <[name := pre ++ post]> (stores w)
     else
       exit_code (a :: name :: cn :: rest) w = 5 ∧
       stores (final_world (a :: name :: cn :: rest) w) = stores w).
Proof.
  intros Ha Hl. unfold exit_code, final_world.
  rewrite (wWinMain_opened _ _ _ _ _ _ _ _ (select_action_delete _ Ha) Hl).
  cbn [call_action]. split.
  - intros Hnone.
    by rewrite (deleteCert_none _ _ _ l) by (done || by apply list_find_absent).
  - intros pre c post -> Hpre Hc.
    rewrite (deleteCert_found _ _ _ (pre ++ c :: post) (length pre) c)
      by (done || by apply list_find_first).
    cbn. destruct (accepts_delete P name (pre ++ c :: post) c); [|done].
    by rewrite delete_middle.
Qed.

(** ** The store handle *)

(** What closing would do: the handle leaves the open handles and the call
    shows in the trace. *)
Lemma CertCloseStore_closes h w :
  (h ∉ open_stores (snd (CertCloseStore h w))) ∧
  calls (snd (CertCloseStore h w)) = calls w ++ [CallCertCloseStore h].
Proof.
  split; [|done]. cbn. intros Hin. by apply list_elem_of_filter in Hin as [Hne _].
Qed.

Lemma action_keeps_handles fn h data w :
  open_stores (snd (call_action fn h data w)) = open_stores w ∧
  List.filter is_close_call (calls (snd (call_action fn h data w)))
  = List.filter is_close_call (calls w).
Proof.
  destruct fn; cbn [call_action];
    unfold checkExists, addCert, deleteCert, reportWindowsError, bind, ret, cerr,
      ifstream_open, CertFindCertificateInStore, CertCreateCertificateContext,
      CertAddCertificateContextToStore, CertDeleteCertificateFromStore,
      CertFreeCertificateContext;
    repeat case_match; simplify_eq/=;
    rewrite ?List.filter_app, ?app_nil_r; done.
Qed.

(** C2, as the code has it.  In every invocation in which the store was
    opened, the program makes no [CertCloseStore] call on any path, error
    branches of find, add and delete included, and the handle is still open
    when [wWinMain] returns. *)
Theorem store_handle_never_closed a name data rest w fn flags l :
  select_action a = Some (fn, flags) →
  stores w !! name = Some l →
  open_stores (final_world (a :: name :: data :: rest) w)
  = open_stores w ++ [mkStore name (open_flags flags)] ∧
  List.filter is_close_call (calls (final_world (a :: name :: data :: rest) w))
  = List.filter is_close_call (calls w).
Proof.
  intros Hsel Hl. unfold final_world.
  rewrite (wWinMain_opened _ _ _ _ _ _ _ _ Hsel Hl).
  destruct (action_keeps_handles fn (mkStore name (open_flags flags)) data
              (opened name (open_flags flags) w)) as [-> ->].
  cbn. by rewrite List.filter_app, app_nil_r.
Qed.

End Runs.

(** * Further properties of the program *)

Section More.
Context {P : Platform}.
Implicit Types (w : @World P) (argv rest : list string) (l : list (Cert P)).

Ltac run_action :=
  unfold checkExists, addCert, deleteCert, reportWindowsError, bind, ret, cerr,
    ifstream_open, CertFindCertificateInStore, CertCreateCertificateContext,
    CertAddCertificateContextToStore, CertDeleteCertificateFromStore,
    CertFreeCertificateContext;
  repeat case_match; simplify_eq/=.

(** What a call of an action can do to the world, whatever the handle. *)
Lemma call_action_calls fn h data w :
  ∃ new, calls (snd (call_action fn h data w)) = calls w ++ new ∧
         Forall (λ c, is_open_call c = false) new.
Proof.
  destruct fn; cbn [call_action]; run_action;
    first
      [ exists []; split; [by rewrite app_nil_r | constructor]
      | repeat rewrite <- app_assoc; eexists; split;
        [reflexivity | by repeat constructor] ].
Qed.

Lemma call_action_stderr fn h data w :
  let r := call_action fn h data w in
  match fn with
  | FnCheckExists => fst r = 0 ∨ fst r = 2
  | FnAddCert => fst r = 2 ∨ fst r = 3 ∨ fst r = 4 ∨ fst r = 5
  | FnDeleteCert => fst r = 0 ∨ fst r = 5 ∨ fst r = 6
  end ∧
  (match fn with
   | FnAddCert => fst r = 5
   | _ => fst r = 0
   end → stderr (snd r) = stderr w) ∧
  (match fn with
   | FnAddCert => fst r ≠ 5
   | _ => fst r ≠ 0
   end → ∃ msg, stderr (snd r) = stderr w ++ [msg]).
Proof.
  destruct fn; cbn [call_action]; run_action;
    (split; [tauto|]); (split; [done|]); intros Hne; try done; by eexists.
Qed.

Lemma call_action_frame fn h data w :
  files (snd (call_action fn h data w)) = files w ∧
  ∀ n, n ≠ hs_name h →
       stores (snd (call_action fn h data w)) !! n = stores w !! n.
Proof.
  destruct fn; cbn [call_action]; run_action; (split; [done|]);
    intros k Hk; try done; by rewrite lookup_insert_ne.
Qed.

Lemma call_action_failure fn h data w :
  match fn with
  | FnCheckExists => True
  | FnAddCert => fst (call_action fn h data w) ≠ 5
  | FnDeleteCert => fst (call_action fn h data w) ≠ 0
  end →
  stores (snd (call_action fn h data w)) = stores w.
Proof. destruct fn; cbn [call_action]; run_action; done. Qed.

Lemma exit_code_long a name data rest w fn flags l :
  select_action a = Some (fn, flags) →
  stores w !! name = Some l →
  exit_code (a :: name :: data :: rest) w
  = fst (call_action fn (mkStore name (open_flags flags)) data
           (opened name (open_flags flags) w)).
Proof. intros Hsel Hl. unfold exit_code. by rewrite (wWinMain_opened _ _ _ _ _ _ _ _ Hsel Hl). Qed.

(** ** The paths of [wWinMain] the claims leave out *)

(** X1.  When the action token is valid and the store cannot be opened, the
    process exits with code 1: no action function runs, the only crypt32
    call is the failed [CertOpenStore], no handle is opened and the stores
    are as before. *)
Theorem store_open_failure a name data rest w fn flags :
  select_action a = Some (fn, flags) →
  stores w !! name = None →
  exit_code (a :: name :: data :: rest) w = 1 ∧
  new_calls (a :: name :: data :: rest) w = [CallCertOpenStore name (open_flags flags)] ∧
  open_stores (final_world (a :: name :: data :: rest) w) = open_stores w ∧
  stores (final_world (a :: name :: data :: rest) w) = stores w.
Proof.
  intros Hsel Hl. unfold exit_code, new_calls, final_world.
  rewrite wWinMain_long, Hsel, Hl. cbn.
  repeat split. by rewrite drop_app_length.
Qed.

(** X2.  Arguments after the third are never read: a run with more than three
    arguments is the run with the first three. *)
Theorem extra_arguments_ignored a name data rest w :
  wWinMain (a :: name :: data :: rest) w = wWinMain [a; name; data] w.
Proof. by rewrite !wWinMain_long. Qed.

(** X3.  The exit codes each action can give: find 0, 1 or 2; add 1, 2, 3, 4 or
    5 and never 0; delete 0, 1, 5 or 6; and 99 when there are fewer than 3
    arguments or the token selects no action. *)
Theorem exit_code_by_action argv w :
  if (length argv <? 3)%nat then exit_code argv w = 99
  else
    match select_action (nth 0 argv "") with
    | None => exit_code argv w = 99
    | Some (FnCheckExists, _) =>
        exit_code argv w = 0 ∨ exit_code argv w = 1 ∨ exit_code argv w = 2
    | Some (FnAddCert, _) =>
        exit_code argv w = 1 ∨ exit_code argv w = 2 ∨ exit_code argv w = 3 ∨
        exit_code argv w = 4 ∨ exit_code argv w = 5
    | Some (FnDeleteCert, _) =>
        exit_code argv w = 0 ∨ exit_code argv w = 1 ∨ exit_code argv w = 5 ∨
        exit_code argv w = 6
    end.
Proof.
  destruct (Nat.ltb_spec (length argv) 3) as [Hlt|Hge].
  { unfold exit_code. by rewrite wWinMain_short. }
  destruct argv as [|a [|name [|data rest]]]; simpl in Hge; try lia.
  cbn [nth]. unfold exit_code. rewrite wWinMain_long.
  destruct (select_action a) as [[fn flags]|]; [|done].
  destruct (stores w !! name) as [l|].
  - pose proof (call_action_stderr fn (mkStore name (open_flags flags)) data
                  (opened name (open_flags flags) w)) as [Hcode _].
    destruct fn; cbn zeta in Hcode; tauto.
  - destruct fn; cbn; tauto.
Qed.

(** ** What a run never touches *)

(** X4.  A run never changes the files, and never changes a store other than
    the one named by its second argument. *)
Theorem run_frame argv w :
  files (final_world argv w) = files w ∧
  ∀ n, n ≠ nth 1 argv "" →
       stores (final_world argv w) !! n = stores w !! n.
Proof.
  unfold final_world.
  destruct (decide (length argv < 3)%nat) as [Hlt|Hge].
  { by rewrite wWinMain_short. }
  destruct argv as [|a [|name [|data rest]]]; simpl in Hge; try lia.
  cbn [nth]. rewrite wWinMain_long.
  destruct (select_action a) as [[fn flags]|]; [|done].
  destruct (stores w !! name) as [l|]; [|done].
  apply (call_action_frame fn (mkStore name (open_flags flags)) data
           (opened name (open_flags flags) w)).
Qed.

(** X5.  A run that exits with a code other than 0 and 5 leaves every store as
    it was: the stores change on a completed add or delete only. *)
Theorem failure_leaves_stores argv w :
  exit_code argv w ≠ 0 →
  exit_code argv w ≠ 5 →
  stores (final_world argv w) = stores w.
Proof.
  unfold exit_code, final_world.
  destruct (decide (length argv < 3)%nat) as [Hlt|Hge].
  { by rewrite wWinMain_short. }
  destruct argv as [|a [|name [|data rest]]]; simpl in Hge; try lia.
  rewrite wWinMain_long.
  destruct (select_action a) as [[fn flags]|]; [|done].
  destruct (stores w !! name) as [l|]; [|done].
  intros H0 H5. by rewrite call_action_failure by (by destruct fn).
Qed.

(** X6.  A run with an existing store and a valid action writes nothing to the
    error stream when it completes (find and delete with exit code 0, add
    with exit code 5) and exactly one message otherwise. *)
Theorem diagnostics_on_failure_only a name data rest w fn flags l :
  select_action a = Some (fn, flags) →
  stores w !! name = Some l →
  let code := exit_code (a :: name :: data :: rest) w in
  let completed := match fn with FnAddCert => code = 5 | _ => code = 0 end in
  (completed → new_stderr (a :: name :: data :: rest) w = []) ∧
  (¬ completed → ∃ msg, new_stderr (a :: name :: data :: rest) w = [msg]).
Proof.
  intros Hsel Hl. cbv zeta. unfold new_stderr, exit_code, final_world.
  rewrite (wWinMain_opened _ _ _ _ _ _ _ _ Hsel Hl).
  pose proof (call_action_stderr fn (mkStore name (open_flags flags)) data
                (opened name (open_flags flags) w)) as (_ & Hok & Hko).
  cbv zeta in Hok, Hko. cbn [stderr opened set_open_stores log_call] in Hok, Hko.
  split.
  - intros Hc. rewrite Hok by (by destruct fn). by rewrite drop_all.
  - intros Hc. destruct Hko as [msg Hmsg]; [by destruct fn|].
    exists msg. by rewrite Hmsg, drop_app_length.
Qed.

(** X7.  Every run makes at most one [CertOpenStore] call, and that call comes
    before every other crypt32 call of the run. *)
Theorem at_most_one_open argv w :
  new_calls argv w = [] ∨
  ∃ name flags tail,
    new_calls argv w = CallCertOpenStore name flags :: tail ∧
    Forall (λ c, is_open_call c = false) tail.
Proof.
  unfold new_calls, final_world.
  destruct (decide (length argv < 3)%nat) as [Hlt|Hge].
  { left. rewrite wWinMain_short by done. cbn. by rewrite drop_all. }
  destruct argv as [|a [|name [|data rest]]]; simpl in Hge; try lia.
  rewrite wWinMain_long.
  destruct (select_action a) as [[fn flags]|].
  2:{ left. cbn. by rewrite drop_all. }
  right. exists name, (open_flags flags).
  destruct (stores w !! name) as [l|].
  - destruct (call_action_calls fn (mkStore name (open_flags flags)) data
                (opened name (open_flags flags) w)) as (new & -> & Hnew).
    exists new. split; [|done]. cbn. by rewrite <- app_assoc, drop_app_length.
  - exists []. split; [|done]. cbn. by rewrite drop_app_length.
Qed.

(** ** The calls of each action *)

Lemma find_run a name cn rest w l :
  starts_with "find" a →
  stores w !! name = Some l →
  wWinMain (a :: name :: cn :: rest) w
  = checkExists (mkStore name (open_flags CERT_STORE_READONLY_FLAG)) cn
      (opened name (open_flags CERT_STORE_READONLY_FLAG) w).
Proof.
  intros Ha Hl. by rewrite (wWinMain_opened _ _ _ _ _ _ _ _ (select_action_find _ Ha) Hl).
Qed.


Lemma delete_run a name cn rest w l :
  starts_with "delete" a →
  stores w !! name = Some l →
  wWinMain (a :: name :: cn :: rest) w
  = deleteCert (mkStore name (open_flags 0)) cn (opened name (open_flags 0) w).
Proof.
  intros Ha Hl. by rewrite (wWinMain_opened _ _ _ _ _ _ _ _ (select_action_delete _ Ha) Hl).
Qed.

Lemma find_code a name cn rest w l :
  starts_with "find" a →
  stores w !! name = Some l →
  exit_code (a :: name :: cn :: rest) w
  = match list_find (λ c, subject_matches P c cn = true) l with
    | Some _ => 0
    | None => 2
    end.
Proof.
  intros Ha Hl. unfold exit_code.
  rewrite (find_run _ _ _ _ _ l), (checkExists_run _ _ _ l) by done.
  by destruct (list_find _ l).
Qed.

Lemma list_find_present (cn : string) l c :
  c ∈ l → subject_matches P c cn = true →
  is_Some (list_find (λ c, subject_matches P c cn = true) l).
Proof.
  intros Hin Hc.
  destruct (list_find _ l) as [r|] eqn:Hfind; [by eexists|].
  apply list_find_None in Hfind. rewrite Forall_forall in Hfind.
  by destruct (Hfind c Hin).
Qed.


(** X9.  Whatever its outcome, a find on a store that opens makes exactly two
    crypt32 calls: the opening of the store, read-only, and one search by
    subject string; it creates, adds, deletes and frees nothing. *)
Theorem find_trace a name cn rest w l :
  starts_with "find" a →
  stores w !! name = Some l →
  new_calls (a :: name :: cn :: rest) w
  = [CallCertOpenStore name (open_flags CERT_STORE_READONLY_FLAG);
     find_call (mkStore name (open_flags CERT_STORE_READONLY_FLAG)) cn].
Proof.
  intros Ha Hl. unfold new_calls, final_world.
  rewrite (find_run _ _ _ _ _ l), (checkExists_run _ _ _ l) by done.
  destruct (list_find _ l); cbn; by rewrite <- app_assoc, drop_app_length.
Qed.


(** X11.  A delete on a store that opens searches once.  With no match that is
    all (exit code 6); with a match it calls the removal, and releases the
    context it found only when the removal succeeded (exit code 0), not
    when the store refused (exit code 5). *)
Theorem delete_trace a name cn rest w l :
  starts_with "delete" a →
  stores w !! name = Some l →
  let h := mkStore name (open_flags 0) in
  let code := exit_code (a :: name :: cn :: rest) w in
  new_calls (a :: name :: cn :: rest) w
  = CallCertOpenStore name (open_flags 0) :: find_call h cn ::
    (if code =? 6 then []
     else if code =? 5 then [CallCertDeleteCertificateFromStore]
     else [CallCertDeleteCertificateFromStore; CallCertFreeCertificateContext]) ∧
  (code = 0 ∨ code = 5 ∨ code = 6).
Proof.
  intros Ha Hl. cbv zeta. unfold new_calls, exit_code, final_world.
  rewrite (delete_run _ _ _ _ _ l) by done.
  destruct (list_find (λ c, subject_matches P c cn = true) l) as [[i c]|] eqn:Hfind.
  - rewrite (deleteCert_found _ _ _ l i c) by done. cbn.
    destruct (accepts_delete P name l c); cbn;
      (split; [by rewrite <- !app_assoc, drop_app_length | tauto]).
  - rewrite (deleteCert_none _ _ _ l) by done. cbn.
    split; [by rewrite <- !app_assoc, drop_app_length | tauto].
Qed.

(** ** How the actions compose *)

(** X12.  Find and delete look a name up in the same way: on the same store,
    find exits with 2 (not found) exactly when delete exits with 6 (nothing
    to delete). *)
Theorem find_delete_agree af ad name cn rest rest' w l :
  starts_with "find" af →
  starts_with "delete" ad →
  stores w !! name = Some l →
  exit_code (af :: name :: cn :: rest) w = 2 ↔
  exit_code (ad :: name :: cn :: rest') w = 6.
Proof.
  intros Hf Hd Hl. rewrite (find_code _ _ _ _ _ l) by done.
  unfold exit_code. rewrite (delete_run _ _ _ _ _ l) by done.
  destruct (list_find (λ c, subject_matches P c cn = true) l) as [[i c]|] eqn:Hfind.
  - rewrite (deleteCert_found _ _ _ l i c) by done. cbn.
    by destruct (accepts_delete P name l c).
  - by rewrite (deleteCert_none _ _ _ l) by done.
Qed.



(** X15.  After a delete that the store accepted, a find with the same name
    exits with 2 when the deleted entry was the only match, and still with
    0 when a later entry matches too: one run of delete removes one
    certificate. *)
Theorem delete_then_find a af name cn rest rest' w pre c post :
  starts_with "delete" a →
  starts_with "find" af →
  stores w !! name = Some (pre ++ c :: post) →
  (∀ c', c' ∈ pre → subject_matches P c' cn = false) →
  subject_matches P c cn = true →
  accepts_delete P name (pre ++ c :: post) c = true →
  let w1 := final_world (a :: name :: cn :: rest) w in
  ((∀ c', c' ∈ post → subject_matches P c' cn = false) →
   exit_code (af :: name :: cn :: rest') w1 = 2) ∧
  ((∃ c', c' ∈ post ∧ subject_matches P c' cn = true) →
   exit_code (af :: name :: cn :: rest') w1 = 0).
Proof.
  intros Ha Haf Hl Hpre Hc Hacc w1.
  assert (Hl1 : stores w1 !! name = Some (pre ++ post)).
  { unfold w1, final_world. rewrite (delete_run _ _ _ _ _ (pre ++ c :: post)) by done.
    rewrite (deleteCert_found _ _ _ (pre ++ c :: post) (length pre) c)
      by (done || by apply list_find_first).
    cbn. rewrite Hacc. cbn. by rewrite lookup_insert_eq, delete_middle. }
  rewrite (find_code _ _ _ _ _ (pre ++ post)) by done. split.
  - intros Hpost. rewrite list_find_absent; [done|].
    intros c' [Hin|Hin]%elem_of_app; auto.
  - intros (c' & Hin & Hc').
    destruct (list_find_present cn (pre ++ post) c') as [r ->]; try done.
    apply elem_of_app. by right.
Qed.

End More.

(** * The program on the in-memory platform *)

Section Examples.
Import Fake.

Lemma starts_with_intro (p rest : string) : starts_with p (p +:+ rest).
Proof. by exists rest. Defined.

(** C1. The import of a well-formed certificate into a store that accepts
    it succeeds, the store holds the certificate afterwards, and the exit
    code of the process is 5: it is not the 0 that the header of
    CertImporter.cpp promises for a successful import. *)
Theorem add_success_exits_5 :
  let argv := ["add"; "ROOT"; "ca.der"] in
  let w := machine platform [old_ca] in
  files w !! "ca.der" = Some ca_der ∧
  decode platform ca_der = Some example_ca ∧
  accepts_add platform "ROOT" [old_ca] example_ca = true ∧
  stores (final_world argv w) !! "ROOT" = Some [old_ca; example_ca] ∧
  exit_code argv w = 5 ∧
  exit_code argv w ≠ 0.
Proof. vm_compute. by repeat split. Qed.

(** C2, as the claim has it, fails: after a successful find on the store
    [ROOT] the process exits with the handle still open and without any
    [CertCloseStore] call in its trace. *)
Lemma find_leaves_store_open :
  let argv := ["find"; "ROOT"; "Old CA"] in
  let w := machine platform [old_ca] in
  let h := mkStore "ROOT" (open_flags CERT_STORE_READONLY_FLAG) in
  stores w !! "ROOT" = Some [old_ca] ∧
  exit_code argv w = 0 ∧
  calls (final_world argv w)
  = [CallCertOpenStore "ROOT" (open_flags CERT_STORE_READONLY_FLAG);
     CallCertFindCertificateInStore h CERT_FIND_SUBJECT_STR "Old CA"] ∧
  h ∈ open_stores (final_world argv w) ∧
  ¬ (∃ h', CallCertCloseStore h' ∈ calls (final_world argv w)).
Proof.
  assert (Hcalls : calls (final_world ["find"; "ROOT"; "Old CA"] (machine platform [old_ca]))
    = [CallCertOpenStore "ROOT" (open_flags CERT_STORE_READONLY_FLAG);
       CallCertFindCertificateInStore
         (mkStore "ROOT" (open_flags CERT_STORE_READONLY_FLAG))
         CERT_FIND_SUBJECT_STR "Old CA"]) by (by vm_compute).
  cbv zeta. rewrite Hcalls. repeat split; try (by vm_compute).
  - assert (Hopen : open_stores (final_world ["find"; "ROOT"; "Old CA"] (machine platform [old_ca]))
      = [mkStore "ROOT" (open_flags CERT_STORE_READONLY_FLAG)]) by (by vm_compute).
    rewrite Hopen. apply list_elem_of_here.
  - intros [h' Hin]. apply elem_of_cons in Hin as [Hin|Hin]; [done|].
    apply elem_of_cons in Hin as [Hin|Hin]; [done|]. by apply elem_of_nil in Hin.
Qed.

(** The error branch of add on a malformed file: exit 3, handle left open. *)
Lemma store_handle_never_closed_witness :
  let argv := ["add"; "ROOT"; "junk.bin"] in
  let w := machine platform [old_ca] in
  exit_code argv w = 3 ∧
  open_stores (final_world argv w) = [mkStore "ROOT" (open_flags 0)] ∧
  List.filter is_close_call (calls (final_world argv w)) = [].
Proof.
  split; [by vm_compute|].
  apply (store_handle_never_closed (P := platform) "add" "ROOT" "junk.bin" []
           (machine platform [old_ca]) FnAddCert 0 [old_ca]).
  - reflexivity.
  - by vm_compute.
Defined.

(** Two arguments only, and an action token in the wrong case. *)
Lemma bad_invocation_exits_99_witness :
  let w := machine platform [old_ca] in
  (exit_code ["find"; "ROOT"] w = 99 ∧ calls (final_world ["find"; "ROOT"] w) = []) ∧
  (exit_code ["Find"; "ROOT"; "Old CA"] w = 99 ∧
   calls (final_world ["Find"; "ROOT"; "Old CA"] w) = []).
Proof.
  split.
  - destruct (bad_invocation_exits_99 (P := platform) ["find"; "ROOT"]
                (machine platform [old_ca])) as (Hc & Ht & _); [|by split].
    left. simpl. lia.
  - destruct (bad_invocation_exits_99 (P := platform) ["Find"; "ROOT"; "Old CA"]
                (machine platform [old_ca])) as (Hc & Ht & _); [|by split].
    right. simpl. repeat split; intros [rest Hrest]; discriminate.
Defined.

(** The token ["finder"] finds "Old CA" by a part of its subject; no entry
    has "Example" in its subject. *)
Lemma find_exit_code_witness :
  let w := machine platform [old_ca] in
  exit_code ["finder"; "ROOT"; "Old"] w = 0 ∧
  exit_code ["find"; "ROOT"; "Example"] w = 2 ∧
  stores (final_world ["finder"; "ROOT"; "Old"] w) = stores w.
Proof.
  assert (Hl : stores (machine platform [old_ca]) !! "ROOT" = Some [old_ca])
    by (by vm_compute).
  destruct (find_exit_code (P := platform) "finder" "ROOT" "Old" []
              (machine platform [old_ca]) [old_ca] (starts_with_intro "find" "er") Hl)
    as (Hs & Hfound & _).
  destruct (find_exit_code (P := platform) "find" "ROOT" "Example" []
              (machine platform [old_ca]) [old_ca] (starts_with_intro "find" "") Hl)
    as (_ & _ & Habsent).
  split; [|split; [|exact Hs]].
  - apply Hfound. exists old_ca. split; [apply list_elem_of_here | reflexivity].
  - apply Habsent. intros c Hc. apply list_elem_of_singleton in Hc as ->. reflexivity.
Defined.



(** A file of zero bytes. *)
Lemma add_empty_file_witness :
  let argv := ["add"; "ROOT"; "empty.der"] in
  let w := machine platform [old_ca] in
  exit_code argv w = 3 ∧ stores (final_world argv w) = stores w.
Proof.
  destruct (add_empty_file (P := platform) "add" "ROOT" "empty.der" []
              (machine platform [old_ca]) [old_ca] eq_refl (starts_with_intro "add" ""))
    as (Hc & _ & Hs & _); [by vm_compute | by vm_compute |].
  by split.
Defined.


(** No subject has "Nobody"; two subjects have "Example", and the second
    of them stays. *)
Lemma delete_first_match_witness :
  let w := machine platform [old_ca; example_ca; example_ca_renewed] in
  (exit_code ["delete"; "ROOT"; "Nobody"] w = 6 ∧
   stores (final_world ["delete"; "ROOT"; "Nobody"] w) = stores w) ∧
  (exit_code ["delete"; "ROOT"; "Example"] w = 0 ∧
   stores (final_world ["delete"; "ROOT"; "Example"] w)
   = <["ROOT" := [old_ca; example_ca_renewed]]> (stores w)).
Proof.
  assert (Hl : stores (machine platform [old_ca; example_ca; example_ca_renewed]) !! "ROOT"
               = Some [old_ca; example_ca; example_ca_renewed]) by (by vm_compute).
  split.
  - apply (delete_first_match (P := platform) "delete" "ROOT" "Nobody" [] _ _
             (starts_with_intro "delete" "") Hl).
    intros c Hc. repeat (apply elem_of_cons in Hc as [->|Hc]; [reflexivity|]).
    by apply elem_of_nil in Hc.
  - apply (proj2 (delete_first_match (P := platform) "delete" "ROOT" "Example" [] _ _
                    (starts_with_intro "delete" "") Hl)
             [old_ca] example_ca [example_ca_renewed] eq_refl); [|reflexivity].
    intros c Hc. apply list_elem_of_singleton in Hc as ->. reflexivity.
Defined.

End Examples.

(** * Further runs on the in-memory platform *)

Section MoreExamples.
Import Fake.

(** There is no store [MY] on the machine. *)
Lemma store_open_failure_witness :
  let argv := ["add"; "MY"; "ca.der"] in
  let w := machine platform [old_ca] in
  exit_code argv w = 1 ∧
  new_calls argv w = [CallCertOpenStore "MY" (open_flags 0)] ∧
  open_stores (final_world argv w) = [] ∧
  stores (final_world argv w) = stores w.
Proof.
  apply (store_open_failure (P := platform) "add" "MY" "ca.der" []
           (machine platform [old_ca]) FnAddCert 0).
  - reflexivity.
  - by vm_compute.
Defined.

(** A malformed file: exit code 3. *)
Lemma failure_leaves_stores_witness :
  let argv := ["add"; "ROOT"; "junk.bin"] in
  let w := machine platform [old_ca] in
  stores (final_world argv w) = stores w.
Proof.
  apply (failure_leaves_stores (P := platform) ["add"; "ROOT"; "junk.bin"]
           (machine platform [old_ca])); by vm_compute.
Defined.

(** A find that finds is silent, a find that does not reports once. *)
Lemma diagnostics_on_failure_only_witness :
  let w := machine platform [old_ca] in
  new_stderr ["find"; "ROOT"; "Old"] w = [] ∧
  ∃ msg, new_stderr ["find"; "ROOT"; "Example"] w = [msg].
Proof.
  assert (Hl : stores (machine platform [old_ca]) !! "ROOT" = Some [old_ca])
    by (by vm_compute).
  split.
  - apply (diagnostics_on_failure_only (P := platform) "find" "ROOT" "Old" []
             (machine platform [old_ca]) FnCheckExists CERT_STORE_READONLY_FLAG
             [old_ca] eq_refl Hl).
    by vm_compute.
  - apply (diagnostics_on_failure_only (P := platform) "find" "ROOT" "Example" []
             (machine platform [old_ca]) FnCheckExists CERT_STORE_READONLY_FLAG
             [old_ca] eq_refl Hl).
    by vm_compute.
Defined.

(** Another store on the machine is out of reach of a run on [ROOT]. *)
Lemma run_frame_witness :
  let argv := ["add"; "ROOT"; "ca.der"] in
  let w := machine platform [old_ca] in
  files (final_world argv w) = files w ∧
  stores (final_world argv w) !! "CA" = stores w !! "CA".
Proof.
  destruct (run_frame (P := platform) ["add"; "ROOT"; "ca.der"]
              (machine platform [old_ca])) as [Hfiles Hstores].
  split; [exact Hfiles|]. apply Hstores. by vm_compute.
Defined.


Lemma find_trace_witness :
  new_calls ["find"; "ROOT"; "Example"] (machine platform [old_ca])
  = [CallCertOpenStore "ROOT" (open_flags CERT_STORE_READONLY_FLAG);
     find_call (mkStore "ROOT" (open_flags CERT_STORE_READONLY_FLAG)) "Example"].
Proof.
  apply (find_trace (P := platform) "find" "ROOT" "Example" []
           (machine platform [old_ca]) [old_ca] (starts_with_intro "find" "")).
  by vm_compute.
Defined.


(** A store that refuses the removal: exit code 5, the context found is
    not released. *)
Lemma delete_trace_witness :
  let argv := ["delete"; "ROOT"; "Old"] in
  let w := machine platform_no_delete [old_ca] in
  new_calls argv w
  = [CallCertOpenStore "ROOT" (open_flags 0);
     find_call (mkStore "ROOT" (open_flags 0)) "Old";
     CallCertDeleteCertificateFromStore] ∧
  exit_code argv w = 5.
Proof.
  destruct (delete_trace (P := platform_no_delete) "delete" "ROOT" "Old" []
              (machine platform_no_delete [old_ca]) [old_ca]
              (starts_with_intro "delete" "")) as [Hcalls _]; [by vm_compute|].
  split; [exact Hcalls | by vm_compute].
Defined.

Lemma find_delete_agree_witness :
  let w := machine platform [old_ca] in
  exit_code ["find"; "ROOT"; "Example"] w = 2 ∧
  exit_code ["delete"; "ROOT"; "Example"] w = 6.
Proof.
  assert (Hfind : exit_code (P := platform) ["find"; "ROOT"; "Example"]
                    (machine platform [old_ca]) = 2) by (by vm_compute).
  split; [exact Hfind|].
  apply (find_delete_agree (P := platform) "find" "delete" "ROOT" "Example" [] []
           (machine platform [old_ca]) [old_ca]
           (starts_with_intro "find" "") (starts_with_intro "delete" "")).
  - by vm_compute.
  - exact Hfind.
Defined.



(** Two certificates have "Example" in their subject: after one delete a
    find still succeeds, after the second it does not. *)
Lemma delete_then_find_witness :
  let w := machine platform [old_ca; example_ca; example_ca_renewed] in
  let w1 := final_world ["delete"; "ROOT"; "Example"] w in
  let w2 := final_world ["delete"; "ROOT"; "Example"] w1 in
  exit_code ["find"; "ROOT"; "Example"] w1 = 0 ∧
  exit_code ["find"; "ROOT"; "Example"] w2 = 2.
Proof.
  split.
  - apply (delete_then_find (P := platform) "delete" "find" "ROOT" "Example" [] []
             (machine platform [old_ca; example_ca; example_ca_renewed])
             [old_ca] example_ca [example_ca_renewed]
             (starts_with_intro "delete" "") (starts_with_intro "find" "")).
    + by vm_compute.
    + intros c Hc. apply list_elem_of_singleton in Hc as ->. reflexivity.
    + reflexivity.
    + reflexivity.
    + exists example_ca_renewed. split; [apply list_elem_of_here | reflexivity].
  - apply (delete_then_find (P := platform) "delete" "find" "ROOT" "Example" [] []
             (final_world ["delete"; "ROOT"; "Example"]
                (machine platform [old_ca; example_ca; example_ca_renewed]))
             [old_ca] example_ca_renewed []
             (starts_with_intro "delete" "") (starts_with_intro "find" "")).
    + by vm_compute.
    + intros c Hc. apply list_elem_of_singleton in Hc as ->. reflexivity.
    + reflexivity.
    + reflexivity.
    + intros c Hc. by apply elem_of_nil in Hc.
Defined.

End MoreExamples.
